(** * Path interpolation of FusionAD's geodesy module

    A shallow embedding of [src/modules/geodesy/src/path_interpolation.py]
    (classes [PathInterpolatorECEF] and [PathInterpolatorUTM]) and the
    properties of its density-adaptive interpolation.

    The Python code computes on [float] values and Python [int]s and may
    raise exceptions.  The embedding keeps this shape:

    - the arithmetic the code uses is an interface, [PyFloat], with two
      instances: [binary64] (IEEE 754 double precision, the arithmetic CPython
      runs, executable with [vm_compute]) and [exactR] (the real numbers, the
      arithmetic the specification reasons in);
    - Python exceptions are the [Raise] results of an error monad;
    - list subscripts follow Python, negative subscripts included;
    - [for n in range(k)] loops are folds over [range k]. *)

From Stdlib Require Import ZArith List Bool Lia.
From Stdlib Require Import Reals Lra Zfloor.
From Stdlib Require Import Floats.PrimFloat Floats.SpecFloat Floats.FloatOps.
Import ListNotations.

Set Implicit Arguments.

(** ** Exceptions *)

Inductive exn : Set :=
| ZeroDivisionError
| IndexError
| OverflowError
| ValueError.

Inductive result (A : Type) : Type :=
| Ok (a : A)
| Raise (e : exn).

Arguments Ok {A} a.
Arguments Raise {A} e.

Definition bind {A B : Type} (m : result A) (k : A -> result B) : result B :=
  match m with
  | Ok a => k a
  | Raise e => Raise e
  end.

Declare Scope py_scope.
Delimit Scope py_scope with py.
Notation "x <- m ;; k" := (bind m (fun x => k))
  (at level 61, m at next level, right associativity) : py_scope.
Notation "' p <- m ;; k" := (bind m (fun p => k))
  (at level 61, p pattern, m at next level, right associativity) : py_scope.
Open Scope py_scope.

(** ** Python lists and loops *)

(** [l[k]]: a subscript in [0, len) counts from the front, one in [-len, 0)
    from the back, anything else raises [IndexError]. *)
Definition subscript {A : Type} (l : list A) (k : Z) : result A :=
  let len := Z.of_nat (length l) in
  let pos := if (k <? 0)%Z then (len + k)%Z else k in
  if ((0 <=? pos) && (pos <? len))%Z then
    match nth_error l (Z.to_nat pos) with
    | Some a => Ok a
    | None => Raise IndexError
    end
  else Raise IndexError.

(** [range(k)]: 0, 1, ..., k-1; empty when k <= 0. *)
Definition range (k : Z) : list Z := map Z.of_nat (seq 0 (Z.to_nat k)).

(** [for n in ns: body], threading the variables the body assigns. *)
Fixpoint for_each {S : Type} (ns : list Z) (body : Z -> S -> result S) (s : S)
  : result S :=
  match ns with
  | [] => Ok s
  | n :: ns' => s' <- body n s ;; for_each ns' body s'
  end.

(** ** The arithmetic of Python floats *)

Class PyFloat (F : Type) : Type := {
  of_int : Z -> F;             (* the float of a Python int *)
  fadd : F -> F -> F;          (* x + y *)
  fsub : F -> F -> F;          (* x - y *)
  fmul : F -> F -> F;          (* x * y *)
  fdiv : F -> F -> result F;   (* x / y, ZeroDivisionError when y == 0 *)
  fsqrt : F -> F;              (* math.sqrt on a non-negative argument *)
  py_int : F -> result Z       (* int(x): truncation toward zero *)
}.

(** [n / d] on two Python ints under [from __future__ import division]:
    a float quotient, [ZeroDivisionError] when [d] is 0.  Python rounds the
    quotient of the two integers once; below 2^53 in absolute value, where
    both convert exactly, that is the quotient of their floats. *)
Definition truediv {F : Type} `{PyFloat F} (n d : Z) : result F :=
  if (d =? 0)%Z then Raise ZeroDivisionError
  else fdiv (of_int n) (of_int d).

(** *** IEEE 754 double precision *)

Definition float_of_Z (z : Z) : float :=
  SF2Prim (binary_normalize prec emax z 0 false).

Definition float_div (x y : float) : result float :=
  if PrimFloat.eqb y PrimFloat.zero then Raise ZeroDivisionError
  else Ok (PrimFloat.div x y).

(** [int(x)]: [OverflowError] on an infinity, [ValueError] on a NaN. *)
Definition float_int (x : float) : result Z :=
  match Prim2SF x with
  | S754_zero _ => Ok 0%Z
  | S754_infinity _ => Raise OverflowError
  | S754_nan => Raise ValueError
  | S754_finite s m e =>
      let a := if (0 <=? e)%Z then Z.shiftl (Zpos m) e
               else Z.shiftr (Zpos m) (- e) in
      Ok (if s then (- a)%Z else a)
  end.

#[export] Instance binary64 : PyFloat float := {
  of_int := float_of_Z;
  fadd := PrimFloat.add;
  fsub := PrimFloat.sub;
  fmul := PrimFloat.mul;
  fdiv := float_div;
  fsqrt := PrimFloat.sqrt;
  py_int := float_int
}.

(** *** Exact real arithmetic *)

Definition Rdiv_py (x y : R) : result R :=
  if Req_dec_T y 0%R then Raise ZeroDivisionError else Ok (x / y)%R.

Definition Rtrunc (x : R) : Z :=
  if Rle_dec 0%R x then Zfloor x else Zceil x.

#[export] Instance exactR : PyFloat R := {
  of_int := IZR;
  fadd := Rplus;
  fsub := Rminus;
  fmul := Rmult;
  fdiv := Rdiv_py;
  fsqrt := R_sqrt.sqrt;
  py_int := fun x => Ok (Rtrunc x)
}.

(** ** The interpolators *)

(** The fine points of a run, one list per axis. *)
Definition coords (F : Type) : Type := (list F * list F * list F)%type.
Definition coords2 (F : Type) : Type := (list F * list F)%type.

Section Interpolators.

Context {F : Type} `{PyFloat F}.


(** Modelled from the spec: [euclidian_distance_3d] belongs to the base class
    [GeodesyConverterECEF] (module [geodesy_conversion_ECEF]), which is not
    part of the sources at hand; the specification calls it the 3D Euclidean
    distance between the two points. *)
Definition euclidian_distance_3d (x1 y1 z1 x2 y2 z2 : F) : F :=
  let dx := fsub x2 x1 in
  let dy := fsub y2 y1 in
  let dz := fsub z2 z1 in
  fsqrt (fadd (fadd (fmul dx dx) (fmul dy dy)) (fmul dz dz)).

(** Modelled from the spec: [euclidian_distance_2d] belongs to the base class
    [GeodesyConverterUTM] (module [geodesy_conversion_UTM]), which is not part
    of the sources at hand; the specification calls it the 2D Euclidean
    distance of the planar frame. *)
Definition euclidian_distance_2d (x1 y1 x2 y2 : F) : F :=
  let dx := fsub x2 x1 in
  let dy := fsub y2 y1 in
  fsqrt (fadd (fmul dx dx) (fmul dy dy)).

(** The one attribute of [self] the interpolation reads; the waypoint data
    the constructor also stores is used by the base class alone. *)
Record PathInterpolatorECEF : Type := {
  centimetersPerPoint : F
}.

Definition PathInterpolatorECEF_init (centimetersPerPoint : option F)
  : PathInterpolatorECEF :=
  {| centimetersPerPoint :=
       match centimetersPerPoint with
       | None => of_int 25
       | Some c => c
       end |}.

Definition set_dist_between_points (self : PathInterpolatorECEF)
    (centimetersPerPoint : F) : PathInterpolatorECEF :=
  {| centimetersPerPoint := centimetersPerPoint |}.

(** [int(distance / (centimetersPerPoint / 100.0))] *)
Definition get_point_density_ECEF (self : PathInterpolatorECEF)
    (x1 y1 z1 x2 y2 z2 centimetersPerPoint : F) : result Z :=
  let d := euclidian_distance_3d x1 y1 z1 x2 y2 z2 in
  s <- fdiv centimetersPerPoint (of_int 100) ;;
  pointDensity <- fdiv d s ;;
  py_int pointDensity.

(** [x0 + (x1-x0)*(n/pointDensity)] *)
Definition lerp (x0 x1 : F) (n pointDensity : Z) : result F :=
  t <- truediv n pointDensity ;;
  Ok (fadd x0 (fmul (fsub x1 x0) t)).

(** The body of the loop [for n in range(pointDensity)] of [interpolate_ECEF]. *)
Definition append_fine_ECEF (x0 x1 y0 y1 z0 z1 : F) (pointDensity : Z)
    (n : Z) (fine : coords F) : result (coords F) :=
  let '(finePointsX, finePointsY, finePointsZ) := fine in
  x <- lerp x0 x1 n pointDensity ;;
  y <- lerp y0 y1 n pointDensity ;;
  z <- lerp z0 z1 n pointDensity ;;
  Ok (finePointsX ++ [x], finePointsY ++ [y], finePointsZ ++ [z]).

Definition interpolate_ECEF (self : PathInterpolatorECEF) (i : Z)
    (relativeX relativeY relativeZ : list F) (numberOfCoarsePoints : Z)
  : result (coords F) :=
  let fine : coords F := ([], [], []) in
  (* Vanilla case: for all points except final point *)
  fine <-
    (if (i <? numberOfCoarsePoints - 1)%Z then
       a1 <- subscript relativeX i ;;
       a2 <- subscript relativeX i ;;
       a3 <- subscript relativeZ i ;;
       a4 <- subscript relativeX (i + 1) ;;
       a5 <- subscript relativeY (i + 1) ;;
       a6 <- subscript relativeZ (i + 1) ;;
       pointDensity <-
         get_point_density_ECEF self a1 a2 a3 a4 a5 a6
           (centimetersPerPoint self) ;;
       x0 <- subscript relativeX i ;;
       x1 <- subscript relativeX (i + 1) ;;
       y0 <- subscript relativeY i ;;
       y1 <- subscript relativeY (i + 1) ;;
       z0 <- subscript relativeZ i ;;
       z1 <- subscript relativeZ (i + 1) ;;
       for_each (range pointDensity)
         (append_fine_ECEF x0 x1 y0 y1 z0 z1 pointDensity) fine
     else Ok fine) ;;
  (* Corner case: for final point *)
  fine <-
    (if (i =? numberOfCoarsePoints - 1)%Z then
       a1 <- subscript relativeX (i - 1) ;;
       a2 <- subscript relativeX (i - 1) ;;
       a3 <- subscript relativeZ (i - 1) ;;
       a4 <- subscript relativeX i ;;
       a5 <- subscript relativeY i ;;
       a6 <- subscript relativeZ i ;;
       pointDensity <-
         get_point_density_ECEF self a1 a2 a3 a4 a5 a6 (of_int 25) ;;
       x0 <- subscript relativeX (i - 1) ;;
       x1 <- subscript relativeX i ;;
       y0 <- subscript relativeY (i - 1) ;;
       y1 <- subscript relativeY i ;;
       z0 <- subscript relativeZ (i - 1) ;;
       z1 <- subscript relativeZ i ;;
       for_each (range pointDensity)
         (append_fine_ECEF x0 x1 y0 y1 z0 z1 pointDensity) fine
     else Ok fine) ;;
  Ok fine.

(** The interpolation pass of [interpolation_publish_ECEF], from the relative
    coordinates (computed by the base class) to the positions it publishes. *)
Definition interpolation_publish_ECEF (self : PathInterpolatorECEF)
    (relativeX relativeY relativeZ : list F) : result (coords F) :=
  let numberOfCoarsePoints := Z.of_nat (length relativeX) in
  for_each (range numberOfCoarsePoints)
    (fun i '(xInterpolatedPositions, yInterpolatedPositions,
             zInterpolatedPositions) =>
       '(finePointsX, finePointsY, finePointsZ) <-
         interpolate_ECEF self i relativeX relativeY relativeZ
           numberOfCoarsePoints ;;
       Ok (xInterpolatedPositions ++ finePointsX,
           yInterpolatedPositions ++ finePointsY,
           zInterpolatedPositions ++ finePointsZ))
    ([], [], []).

(** *** The planar (UTM) interpolator *)

Record PathInterpolatorUTM : Type := {
  centimetersPerPointUTM : F
}.

Definition PathInterpolatorUTM_init (centimetersPerPoint : option F)
  : PathInterpolatorUTM :=
  {| centimetersPerPointUTM :=
       match centimetersPerPoint with
       | None => of_int 25
       | Some c => c
       end |}.

(** [PathInterpolatorUTM.set_dist_between_points] *)
Definition set_dist_between_points_UTM (self : PathInterpolatorUTM)
    (centimetersPerPoint : F) : PathInterpolatorUTM :=
  {| centimetersPerPointUTM := centimetersPerPoint |}.

Definition get_point_density_UTM (self : PathInterpolatorUTM)
    (relativeEasting1 relativeNorthing1 relativeEasting2 relativeNorthing2
     centimetersPerPoint : F) : result Z :=
  let d := euclidian_distance_2d relativeEasting1 relativeEasting1
             relativeEasting2 relativeNorthing2 in
  s <- fdiv centimetersPerPoint (of_int 100) ;;
  pointDensity <- fdiv d s ;;
  py_int pointDensity.

Definition append_fine_UTM (x0 x1 y0 y1 : F) (pointDensity : Z)
    (n : Z) (fine : coords2 F) : result (coords2 F) :=
  let '(finePointsEasting, finePointsNorthing) := fine in
  x <- lerp x0 x1 n pointDensity ;;
  y <- lerp y0 y1 n pointDensity ;;
  Ok (finePointsEasting ++ [x], finePointsNorthing ++ [y]).

Definition interpolate_UTM (self : PathInterpolatorUTM) (i : Z)
    (relativeEasting relativeNorthing : list F) (numberOfCoarsePoints : Z)
  : result (coords2 F) :=
  let fine : coords2 F := ([], []) in
  fine <-
    (if (i <? numberOfCoarsePoints - 1)%Z then
       a1 <- subscript relativeEasting i ;;
       a2 <- subscript relativeEasting i ;;
       a3 <- subscript relativeEasting (i + 1) ;;
       a4 <- subscript relativeNorthing (i + 1) ;;
       pointDensity <- get_point_density_UTM self a1 a2 a3 a4 (of_int 25) ;;
       x0 <- subscript relativeEasting i ;;
       x1 <- subscript relativeEasting (i + 1) ;;
       y0 <- subscript relativeNorthing i ;;
       y1 <- subscript relativeNorthing (i + 1) ;;
       for_each (range pointDensity)
         (append_fine_UTM x0 x1 y0 y1 pointDensity) fine
     else Ok fine) ;;
  fine <-
    (if (i =? numberOfCoarsePoints - 1)%Z then
       a1 <- subscript relativeEasting (i - 1) ;;
       a2 <- subscript relativeEasting (i - 1) ;;
       a3 <- subscript relativeEasting i ;;
       a4 <- subscript relativeNorthing i ;;
       pointDensity <- get_point_density_UTM self a1 a2 a3 a4 (of_int 25) ;;
       x0 <- subscript relativeEasting (i - 1) ;;
       x1 <- subscript relativeEasting i ;;
       y0 <- subscript relativeNorthing (i - 1) ;;
       y1 <- subscript relativeNorthing i ;;
       for_each (range pointDensity)
         (append_fine_UTM x0 x1 y0 y1 pointDensity) fine
     else Ok fine) ;;
  Ok fine.

Definition interpolation_publish_UTM (self : PathInterpolatorUTM)
    (relativeEastings relativeNorthings : list F) : result (coords2 F) :=
  let numberOfCoarsePoints := Z.of_nat (length relativeEastings) in
  for_each (range numberOfCoarsePoints)
    (fun i '(eastingInterpolatedPositions, northingInterpolatedPositions) =>
       '(finePointsEasting, finePointsNorthing) <-
         interpolate_UTM self i relativeEastings relativeNorthings
           numberOfCoarsePoints ;;
       Ok (eastingInterpolatedPositions ++ finePointsEasting,
           northingInterpolatedPositions ++ finePointsNorthing))
    ([], []).

End Interpolators.

(** ** The path message *)

(** What the loop of [interpolation_publish_ECEF] stores in a [PoseStamped]:
    the sequence number of its header and the position of its pose.  The time
    stamp, a reading of the ROS clock, is left out. *)
Record PoseStamped (F : Type) : Type := {
  header_seq : Z;
  position_x : F;
  position_y : F;
  position_z : F
}.

(** The same for [interpolation_publish_UTM], which sets no [position.z]. *)
Record PoseStampedUTM (F : Type) : Type := {
  header_seq_UTM : Z;
  position_x_UTM : F;
  position_y_UTM : F
}.

(** The body of the loop [for i in range(len(yInterpolatedPositions))] that
    fills [path.poses].  Its state is the variable [i], which Python keeps
    after the loop ([None]: not bound yet), and the poses appended so far. *)
Definition append_pose_ECEF {F : Type}
    (xInterpolatedPositions yInterpolatedPositions
     zInterpolatedPositions : list F)
    (i : Z) (state : option Z * list (PoseStamped F))
  : result (option Z * list (PoseStamped F)) :=
  let '(_, poses) := state in
  x <- subscript xInterpolatedPositions i ;;
  y <- subscript yInterpolatedPositions i ;;
  z <- subscript zInterpolatedPositions i ;;
  Ok (Some i,
      poses ++ [ {| header_seq := i; position_x := x;
                    position_y := y; position_z := z |} ]).

(** The loop itself; [i_before] is what the loop over the coarse points left
    in [i].  The message logged after the loop reports [i+1] steps. *)
Definition path_poses_ECEF {F : Type} (i_before : option Z)
    (xInterpolatedPositions yInterpolatedPositions
     zInterpolatedPositions : list F)
  : result (option Z * list (PoseStamped F)) :=
  for_each (range (Z.of_nat (length yInterpolatedPositions)))
    (append_pose_ECEF xInterpolatedPositions yInterpolatedPositions
       zInterpolatedPositions)
    (i_before, []).

(** The body of the loop [for i in range(len(eastingInterpolatedPositions))]. *)
Definition append_pose_UTM {F : Type}
    (eastingInterpolatedPositions northingInterpolatedPositions : list F)
    (i : Z) (state : option Z * list (PoseStampedUTM F))
  : result (option Z * list (PoseStampedUTM F)) :=
  let '(_, poses) := state in
  x <- subscript eastingInterpolatedPositions i ;;
  y <- subscript northingInterpolatedPositions i ;;
  Ok (Some i,
      poses ++ [ {| header_seq_UTM := i; position_x_UTM := x;
                    position_y_UTM := y |} ]).

Definition path_poses_UTM {F : Type} (i_before : option Z)
    (eastingInterpolatedPositions northingInterpolatedPositions : list F)
  : result (option Z * list (PoseStampedUTM F)) :=
  for_each (range (Z.of_nat (length eastingInterpolatedPositions)))
    (append_pose_UTM eastingInterpolatedPositions
       northingInterpolatedPositions)
    (i_before, []).

(** ** Notions the properties are stated with *)

(** The three lists a state of the interpolation holds have one length. *)
Definition aligned {F : Type} (fine : coords F) : Prop :=
  let '(xs, ys, zs) := fine in
  length xs = length ys /\ length ys = length zs.

(** The two lists a state of the planar interpolation holds have one length. *)
Definition aligned_UTM {F : Type} (fine : coords2 F) : Prop :=
  length (fst fine) = length (snd fine).

(** The sample of index [n] of a segment cut in [pointDensity] parts. *)
Definition sample (x0 x1 : R) (pointDensity n : Z) : R :=
  (x0 + (x1 - x0) * (IZR n / IZR pointDensity))%R.

(** The fine points [interpolate_ECEF] emits for one pair of coarse points,
    [a] first and [b] second, at spacing [cpp]. *)
Definition emitted_segment (cpp xa ya za xb yb zb : R) : coords R :=
  let pointDensity :=
    Rtrunc (euclidian_distance_3d xa xa za xb yb zb / (cpp / 100))%R in
  (map (sample xa xb pointDensity) (range pointDensity),
   map (sample ya yb pointDensity) (range pointDensity),
   map (sample za zb pointDensity) (range pointDensity)).

Definition at_index (l : list R) (i : Z) : R := nth (Z.to_nat i) l 0%R.

(** [x] is [n] up to 2^-43 (about 1.14e-13). *)
Definition close_to (x : float) (n : Z) : bool :=
  PrimFloat.leb (PrimFloat.abs (PrimFloat.sub x (float_of_Z n))) 0x1p-43%float.

Definition exactly (x : float) (n : Z) : bool :=
  PrimFloat.eqb x (float_of_Z n).

(** ** Loops: general facts *)

Ltac bind_ok H :=
  repeat match type of H with
  | bind ?m _ = Ok _ =>
      let E := fresh "E" in
      destruct m eqn:E; cbn [bind] in H; [ | discriminate H ]
  end.

Ltac binds_ok :=
  repeat match goal with
  | H : bind ?m _ = Ok _ |- _ =>
      let E := fresh "E" in
      destruct m eqn:E; cbn [bind] in H; [ | discriminate H ]
  | H : Ok ?a = Ok ?b |- _ =>
      first [ is_var b; injection H as <- | is_var a; injection H as -> ]
  end.

Lemma for_each_invariant {S : Type} (P : S -> Prop)
    (body : Z -> S -> result S) :
  (forall n s s', P s -> body n s = Ok s' -> P s') ->
  forall ns s s', P s -> for_each ns body s = Ok s' -> P s'.
Proof.
  intros Hbody ns; induction ns as [ | n ns IH ]; intros s s' Hs Hrun.
  - cbn in Hrun. now injection Hrun as <-.
  - cbn [for_each] in Hrun. bind_ok Hrun. eauto.
Qed.

Section Lengths.

Context {F : Type} `{PyFloat F}.

Lemma append_fine_ECEF_aligned x0 x1 y0 y1 z0 z1 pointDensity n
    (fine fine' : coords F) :
  aligned fine ->
  append_fine_ECEF x0 x1 y0 y1 z0 z1 pointDensity n fine = Ok fine' ->
  aligned fine'.
Proof.
  destruct fine as [[xs ys] zs]; unfold append_fine_ECEF; intros [Hxy Hyz] Hrun.
  bind_ok Hrun. injection Hrun as <-. cbn.
  rewrite !length_app; cbn; lia.
Qed.

Lemma emit_ECEF_aligned x0 x1 y0 y1 z0 z1 pointDensity ns
    (fine fine' : coords F) :
  aligned fine ->
  for_each ns (append_fine_ECEF x0 x1 y0 y1 z0 z1 pointDensity) fine
    = Ok fine' ->
  aligned fine'.
Proof.
  apply (for_each_invariant aligned).
  intros n s s'; apply append_fine_ECEF_aligned.
Qed.

Lemma interpolate_ECEF_aligned self i relativeX relativeY relativeZ
    numberOfCoarsePoints (fine : coords F) :
  interpolate_ECEF self i relativeX relativeY relativeZ numberOfCoarsePoints
    = Ok fine ->
  aligned fine.
Proof.
  unfold interpolate_ECEF; intros Hrun.
  assert (Hnil : aligned (([], [], []) : coords F)) by (cbn; auto).
  destruct (i <? numberOfCoarsePoints - 1)%Z;
    destruct (i =? numberOfCoarsePoints - 1)%Z;
    binds_ok;
    repeat match goal with
    | A : aligned ?s, E : for_each _ _ ?s = Ok _ |- _ =>
        eapply emit_ECEF_aligned in E; [ | exact A ]
    end;
    assumption.
Qed.

Lemma aligned_app (xs ys zs xs' ys' zs' : list F) :
  aligned (xs, ys, zs) -> aligned (xs', ys', zs') ->
  aligned (xs ++ xs', ys ++ ys', zs ++ zs').
Proof.
  cbn; intros [? ?] [? ?]; rewrite !length_app; lia.
Qed.

Lemma interpolation_publish_ECEF_aligned self relativeX relativeY relativeZ
    (positions : coords F) :
  interpolation_publish_ECEF self relativeX relativeY relativeZ = Ok positions ->
  aligned positions.
Proof.
  unfold interpolation_publish_ECEF.
  apply for_each_invariant; [ | cbn; auto ].
  intros i [[xs ys] zs] s' Hs Hrun.
  bind_ok Hrun. destruct a as [[fx fy] fz]. injection Hrun as <-.
  apply aligned_app; [ assumption | ].
  eapply interpolate_ECEF_aligned; eassumption.
Qed.

End Lengths.

(** ** Subscripts in range *)

Lemma subscript_nth {A : Type} (l : list A) (k : Z) (d : A) :
  (0 <= k < Z.of_nat (length l))%Z ->
  subscript l k = Ok (nth (Z.to_nat k) l d).
Proof.
  intros Hk; unfold subscript.
  destruct (Z.ltb_spec k 0); [ lia | ].
  destruct (Z.leb_spec 0 k); [ | lia ].
  destruct (Z.ltb_spec k (Z.of_nat (length l))); [ | lia ].
  cbn [andb].
  destruct (nth_error l (Z.to_nat k)) as [ a | ] eqn:E.
  - now rewrite (nth_error_nth _ _ d E).
  - apply nth_error_None in E; lia.
Qed.


Lemma in_range (k n : Z) : In n (range k) <-> (0 <= n < k)%Z.
Proof.
  unfold range; rewrite in_map_iff; split.
  - intros (m & <- & Hm); apply in_seq in Hm; lia.
  - intros Hn; exists (Z.to_nat n); split; [ lia | apply in_seq; lia ].
Qed.

Lemma for_each_total {S : Type} (body : Z -> S -> result S) (ns : list Z) :
  (forall n s, In n ns -> exists s', body n s = Ok s') ->
  forall s, exists s', for_each ns body s = Ok s'.
Proof.
  induction ns as [ | n ns IH ]; intros Hbody s; cbn [for_each].
  - now exists s.
  - destruct (Hbody n s (or_introl eq_refl)) as [s1 ->]; cbn [bind].
    apply IH; intros m s2 Hm; apply Hbody; now right.
Qed.

(** ** Exact arithmetic: what a run computes *)

Section Exact.

Open Scope R_scope.

Lemma fdiv_exactR (x y : R) : y <> 0 -> fdiv x y = Ok (x / y).
Proof.
  intros Hy; cbn; unfold Rdiv_py. now destruct (Req_dec_T y 0).
Qed.

Lemma fdiv_exactR_zero (x : R) : fdiv x 0 = Raise ZeroDivisionError.
Proof.
  cbn; unfold Rdiv_py. now destruct (Req_dec_T 0 0).
Qed.

Lemma truediv_exactR (n d : Z) :
  d <> 0%Z -> truediv (F:=R) n d = Ok (IZR n / IZR d).
Proof.
  intros Hd; unfold truediv.
  destruct (Z.eqb_spec d 0); [ contradiction | ].
  apply fdiv_exactR. now apply not_0_IZR.
Qed.

Lemma lerp_exactR (x0 x1 : R) (n pointDensity : Z) :
  pointDensity <> 0%Z ->
  lerp x0 x1 n pointDensity = Ok (sample x0 x1 pointDensity n).
Proof.
  intros Hd; unfold lerp. now rewrite truediv_exactR.
Qed.

Lemma emit_exactR x0 x1 y0 y1 z0 z1 pointDensity ns (xs ys zs : list R) :
  pointDensity <> 0%Z ->
  for_each ns (append_fine_ECEF x0 x1 y0 y1 z0 z1 pointDensity) (xs, ys, zs)
  = Ok (xs ++ map (sample x0 x1 pointDensity) ns,
        ys ++ map (sample y0 y1 pointDensity) ns,
        zs ++ map (sample z0 z1 pointDensity) ns).
Proof.
  intros Hd; revert xs ys zs.
  induction ns as [ | n ns IH ]; intros xs ys zs; cbn [for_each map].
  - now rewrite !app_nil_r.
  - unfold append_fine_ECEF at 1. rewrite !lerp_exactR by assumption.
    cbn [bind]. rewrite IH, <- !app_assoc. reflexivity.
Qed.

Lemma emit_range_exactR x0 x1 y0 y1 z0 z1 pointDensity :
  for_each (range pointDensity)
    (append_fine_ECEF x0 x1 y0 y1 z0 z1 pointDensity) ([], [], [])
  = Ok (map (sample x0 x1 pointDensity) (range pointDensity),
        map (sample y0 y1 pointDensity) (range pointDensity),
        map (sample z0 z1 pointDensity) (range pointDensity)).
Proof.
  destruct (Z.eq_dec pointDensity 0) as [ -> | Hd ].
  - reflexivity.
  - now rewrite emit_exactR.
Qed.

Lemma get_point_density_ECEF_exactR self x1 y1 z1 x2 y2 z2 cpp :
  cpp <> 0 ->
  get_point_density_ECEF self x1 y1 z1 x2 y2 z2 cpp
  = Ok (Rtrunc (euclidian_distance_3d x1 y1 z1 x2 y2 z2 / (cpp / 100))).
Proof.
  intros Hc; unfold get_point_density_ECEF.
  change (of_int 100) with 100.
  rewrite (fdiv_exactR cpp) by lra; cbn [bind].
  rewrite fdiv_exactR; [ reflexivity | ].
  intros E; apply Hc; lra.
Qed.

Lemma get_point_density_ECEF_zero self x1 y1 z1 x2 y2 z2 :
  get_point_density_ECEF (F:=R) self x1 y1 z1 x2 y2 z2 0
  = Raise ZeroDivisionError.
Proof.
  unfold get_point_density_ECEF.
  change (of_int 100) with 100.
  rewrite (fdiv_exactR 0) by lra; cbn [bind].
  replace (0 / 100) with 0 by lra.
  now rewrite fdiv_exactR_zero.
Qed.


Lemma Rtrunc_nonneg (x : R) : 0 <= x -> Rtrunc x = Zfloor x.
Proof.
  intros Hx; unfold Rtrunc. now destruct (Rle_dec 0 x).
Qed.


Lemma interpolate_ECEF_vanilla_exactR self i relativeX relativeY relativeZ
    numberOfCoarsePoints :
  Z.of_nat (length relativeX) = numberOfCoarsePoints ->
  Z.of_nat (length relativeY) = numberOfCoarsePoints ->
  Z.of_nat (length relativeZ) = numberOfCoarsePoints ->
  (0 <= i < numberOfCoarsePoints - 1)%Z ->
  centimetersPerPoint self <> 0 ->
  interpolate_ECEF self i relativeX relativeY relativeZ numberOfCoarsePoints
  = Ok (emitted_segment (centimetersPerPoint self)
          (at_index relativeX i) (at_index relativeY i) (at_index relativeZ i)
          (at_index relativeX (i + 1)) (at_index relativeY (i + 1))
          (at_index relativeZ (i + 1))).
Proof.
  intros HX HY HZ Hi Hc; unfold interpolate_ECEF.
  destruct (Z.ltb_spec i (numberOfCoarsePoints - 1)); [ | lia ].
  destruct (Z.eqb_spec i (numberOfCoarsePoints - 1)); [ lia | ].
  rewrite !(subscript_nth _ 0) by lia; cbn [bind].
  rewrite get_point_density_ECEF_exactR by assumption; cbn [bind].
  now rewrite emit_range_exactR.
Qed.

Lemma interpolate_ECEF_corner_exactR self i relativeX relativeY relativeZ
    numberOfCoarsePoints :
  Z.of_nat (length relativeX) = numberOfCoarsePoints ->
  Z.of_nat (length relativeY) = numberOfCoarsePoints ->
  Z.of_nat (length relativeZ) = numberOfCoarsePoints ->
  (2 <= numberOfCoarsePoints)%Z ->
  i = (numberOfCoarsePoints - 1)%Z ->
  interpolate_ECEF self i relativeX relativeY relativeZ numberOfCoarsePoints
  = Ok (emitted_segment 25
          (at_index relativeX (i - 1)) (at_index relativeY (i - 1))
          (at_index relativeZ (i - 1))
          (at_index relativeX i) (at_index relativeY i) (at_index relativeZ i)).
Proof.
  intros HX HY HZ HN Hi; unfold interpolate_ECEF.
  destruct (Z.ltb_spec i (numberOfCoarsePoints - 1)); [ lia | ].
  destruct (Z.eqb_spec i (numberOfCoarsePoints - 1)); [ | lia ].
  cbn [bind].
  rewrite !(subscript_nth _ 0) by lia; cbn [bind].
  change (of_int 25) with 25.
  rewrite get_point_density_ECEF_exactR by lra; cbn [bind].
  now rewrite emit_range_exactR.
Qed.

(** With a single coarse point the corner case reads [relativeX[-1]], which
    is the point itself. *)
Lemma interpolate_ECEF_single_exactR self (x y z : R) :
  interpolate_ECEF self 0 [x] [y] [z] 1
  = Ok (emitted_segment 25 x y z x y z).
Proof.
  unfold interpolate_ECEF.
  change (0 <? 1 - 1)%Z with false; change (0 =? 1 - 1)%Z with true.
  cbn iota; cbn [bind].
  change (subscript [x] (0 - 1)) with (Ok x).
  change (subscript [y] (0 - 1)) with (Ok y).
  change (subscript [z] (0 - 1)) with (Ok z).
  change (subscript [x] 0) with (Ok x).
  change (subscript [y] 0) with (Ok y).
  change (subscript [z] 0) with (Ok z).
  cbn [bind]. change (of_int 25) with 25.
  rewrite get_point_density_ECEF_exactR by lra; cbn [bind].
  now rewrite emit_range_exactR.
Qed.

Lemma interpolate_ECEF_returns_exactR self i relativeX relativeY relativeZ :
  length relativeX = length relativeY ->
  length relativeY = length relativeZ ->
  centimetersPerPoint self <> 0 ->
  (0 <= i < Z.of_nat (length relativeX))%Z ->
  exists fine,
    interpolate_ECEF self i relativeX relativeY relativeZ
      (Z.of_nat (length relativeX)) = Ok fine.
Proof.
  intros HXY HYZ Hc Hi.
  destruct (Z.lt_ge_cases i (Z.of_nat (length relativeX) - 1)) as [ Hlt | Hge ].
  - eexists; apply interpolate_ECEF_vanilla_exactR; (lia || assumption).
  - destruct (Z.le_gt_cases 2 (Z.of_nat (length relativeX))) as [ H2 | H1 ].
    + eexists; apply interpolate_ECEF_corner_exactR; lia.
    + destruct relativeX as [ | x [ | ? ? ] ]; cbn in Hi, H1; try lia.
      destruct relativeY as [ | y [ | ? ? ] ]; try discriminate HXY.
      destruct relativeZ as [ | z [ | ? ? ] ]; try discriminate HYZ.
      replace i with 0%Z by (cbn in Hi; lia).
      eexists; apply interpolate_ECEF_single_exactR.
Qed.

Lemma interpolation_publish_ECEF_returns_exactR self
    relativeX relativeY relativeZ :
  length relativeX = length relativeY ->
  length relativeY = length relativeZ ->
  centimetersPerPoint self <> 0 ->
  exists positions,
    interpolation_publish_ECEF self relativeX relativeY relativeZ
    = Ok positions.
Proof.
  intros HXY HYZ Hc; unfold interpolation_publish_ECEF.
  apply for_each_total. intros i [[xs ys] zs] Hi.
  apply in_range in Hi.
  destruct (@interpolate_ECEF_returns_exactR self i relativeX relativeY
              relativeZ HXY HYZ Hc Hi) as [[[fx fy] fz] ->].
  cbn [bind]. eauto.
Qed.

End Exact.

(** ** Double precision: telling floats apart *)

Lemma float_neq (x y : float) :
  PrimFloat.eqb x x = true -> PrimFloat.eqb x y = false -> x <> y.
Proof.
  intros Hxx Hxy E; rewrite <- E in Hxy; congruence.
Qed.

Lemma float_not_in (a : float) (l : list float) :
  PrimFloat.eqb a a = true -> existsb (PrimFloat.eqb a) l = false -> ~ In a l.
Proof.
  intros Ha Hl Hin.
  assert (existsb (PrimFloat.eqb a) l = true)
    by (apply existsb_exists; exists a; auto).
  congruence.
Qed.

(** ** The density of a segment *)

(** C1.  The claim: the per-segment count is floor(d / (S/100)) with d the 3D
    distance between P_i and P_(i+1), all three coordinates of both points
    entering.  The code passes [relativeX[i]] where the y of P_i belongs:
    on the segment from (3,0,0) to (3,4,0), of length 4, at spacing 100 it
    emits one point, where the density of the true distance is 4. *)
Theorem density_misses_y_of_first_point :
  interpolate_ECEF (PathInterpolatorECEF_init (Some 100%float)) 1
    [0; 3; 3]%float [0; 0; 4]%float [0; 0; 0]%float 3
  = Ok ([3], [0], [0])%float
  /\ get_point_density_ECEF (PathInterpolatorECEF_init (Some 100%float))
       3%float 0%float 0%float 3%float 4%float 0%float 100%float
     = Ok 4%Z.
Proof.
  split; vm_compute; reflexivity.
Qed.



(** ** Which spacing a segment is cut with *)

(** C3.  The claim: every segment of a run is cut with the configured
    [centimetersPerPoint], in both interpolators.  Configured at 100, the
    vanilla step of the Cartesian interpolator cuts the segment from (0,0,0)
    to (3,0,0) in 3 points, but its corner case and the vanilla step of the
    planar interpolator cut it in 12: they pass the literal 25. *)
Theorem corner_case_and_UTM_cut_with_25 :
  interpolate_ECEF (PathInterpolatorECEF_init (Some 100%float)) 0
    [0; 3]%float [0; 0]%float [0; 0]%float 2
  = Ok ([0; 1; 2], [0; 0; 0], [0; 0; 0])%float
  /\ interpolate_ECEF (PathInterpolatorECEF_init (Some 100%float)) 1
       [0; 3]%float [0; 0]%float [0; 0]%float 2
     = Ok ([0; 0.25; 0.5; 0.75; 1; 1.25; 1.5; 1.75; 2; 2.25; 2.5; 2.75],
           [0; 0; 0; 0; 0; 0; 0; 0; 0; 0; 0; 0],
           [0; 0; 0; 0; 0; 0; 0; 0; 0; 0; 0; 0])%float
  /\ interpolate_UTM (PathInterpolatorUTM_init (Some 100%float)) 0
       [0; 3]%float [0; 0]%float 2
     = Ok ([0; 0.25; 0.5; 0.75; 1; 1.25; 1.5; 1.75; 2; 2.25; 2.5; 2.75],
           [0; 0; 0; 0; 0; 0; 0; 0; 0; 0; 0; 0])%float.
Proof.
  repeat split; vm_compute; reflexivity.
Qed.

(** ** The final segment *)

(** At the default spacing the step of index N-2 and the corner case of index
    N-1 run the same computation, whatever the arithmetic. *)
Lemma final_segment_twice_at_25 {F : Type} `{PyFloat F}
    (relativeX relativeY relativeZ : list F) (numberOfCoarsePoints : Z) :
  interpolate_ECEF (PathInterpolatorECEF_init None)
    (numberOfCoarsePoints - 2) relativeX relativeY relativeZ
    numberOfCoarsePoints
  = interpolate_ECEF (PathInterpolatorECEF_init None)
      (numberOfCoarsePoints - 1) relativeX relativeY relativeZ
      numberOfCoarsePoints.
Proof.
  unfold interpolate_ECEF.
  destruct (Z.ltb_spec (numberOfCoarsePoints - 2) (numberOfCoarsePoints - 1));
    [ | lia ].
  destruct (Z.eqb_spec (numberOfCoarsePoints - 2) (numberOfCoarsePoints - 1));
    [ lia | ].
  destruct (Z.ltb_spec (numberOfCoarsePoints - 1) (numberOfCoarsePoints - 1));
    [ lia | ].
  destruct (Z.eqb_spec (numberOfCoarsePoints - 1) (numberOfCoarsePoints - 1));
    [ | lia ].
  replace (numberOfCoarsePoints - 2 + 1)%Z with (numberOfCoarsePoints - 1)%Z
    by lia.
  replace (numberOfCoarsePoints - 1 - 1)%Z with (numberOfCoarsePoints - 2)%Z
    by lia.
  cbn [bind PathInterpolatorECEF_init centimetersPerPoint].
  repeat (destruct (subscript _ _); cbn [bind]; [ | reflexivity ]).
  destruct (get_point_density_ECEF _ _ _ _ _ _ _ _); cbn [bind];
    [ | reflexivity ].
  destruct (for_each _ _ _); reflexivity.
Qed.

(** C4.  The claim: the corner case of index N-1 repeats the output of the
    step of index N-2.  Configured at 100, on the pair (0,0,0), (3,0,0) the
    step emits 3 points and the corner case 12: the two outputs differ. *)
Theorem final_segment_outputs_differ :
  interpolate_ECEF (PathInterpolatorECEF_init (Some 100%float)) 0
    [0; 3]%float [0; 0]%float [0; 0]%float 2
  <> interpolate_ECEF (PathInterpolatorECEF_init (Some 100%float)) 1
       [0; 3]%float [0; 0]%float [0; 0]%float 2.
Proof.
  intros E.
  apply (f_equal (fun r => match r with
                           | Ok (xs, _, _) => length xs
                           | Raise _ => 0%nat
                           end)) in E.
  vm_compute in E. discriminate E.
Qed.

(** C2.  The claim: every coarse point appears in the fine trajectory.  On
    the coarse points (0,0,0), (3,0,0) at spacing 100 the run returns 15
    points, none of which has the x of the final coarse point: the corner
    case for the final point interpolates the pair before it once more and
    stops short of it. *)
Theorem final_coarse_point_not_emitted :
  exists xs ys zs : list float,
    interpolation_publish_ECEF (PathInterpolatorECEF_init (Some 100%float))
      [0; 3]%float [0; 0]%float [0; 0]%float
    = Ok (xs, ys, zs)
    /\ length xs = 15%nat
    /\ ~ In 3%float xs.
Proof.
  eexists _, _, _; split; [ vm_compute; reflexivity | split ].
  - reflexivity.
  - apply float_not_in; vm_compute; reflexivity.
Qed.

(** ** Coincident coarse points *)

(** The scenario of the specification: P0 = P1 = (5,5,5) at spacing 25 emits
    nothing and raises nothing. *)
Lemma coincident_5_5_5_emits_nothing :
  interpolate_ECEF (PathInterpolatorECEF_init (Some 25%float)) 0
    [5; 5]%float [5; 5]%float [5; 5]%float 2
  = Ok ([], [], []).
Proof.
  vm_compute; reflexivity.
Qed.

(** C8.  The claim: a segment whose two endpoints coincide has density 0 and
    contributes no points.  On the coarse points (0,0,0), (3,4,0), (3,4,0) at
    spacing 25 the segment of index 1 joins two coincident points, and the
    code emits 4 copies of (3,4,0): its distance takes [relativeX[1]] = 3 for
    the y of the first point. *)
Theorem coincident_points_emit_copies :
  interpolate_ECEF (PathInterpolatorECEF_init (Some 25%float)) 1
    [0; 3; 3]%float [0; 4; 4]%float [0; 0; 0]%float 3
  = Ok ([3; 3; 3; 3], [4; 4; 4; 4], [0; 0; 0; 0])%float.
Proof.
  vm_compute; reflexivity.
Qed.

(** ** The scenario of the specification: (0,0,0) to (300,0,0) at spacing 100 *)

(** C5, as stated: x_n = n for n = 0 ... 299.  In double precision the point
    of index 21 is 300 * (21 / 300), one unit in the last place above 21. *)
Lemma scenario_x21_is_not_21 :
  exists fx fy fz : list float,
    interpolate_ECEF (PathInterpolatorECEF_init (Some 100%float)) 0
      [0; 300]%float [0; 0]%float [0; 0]%float 2
    = Ok (fx, fy, fz)
    /\ nth 21 fx 0%float = PrimFloat.next_up 21%float
    /\ nth 21 fx 0%float <> 21%float.
Proof.
  eexists _, _, _; split; [ vm_compute; reflexivity | split ].
  - vm_compute; reflexivity.
  - apply not_eq_sym, float_neq; vm_compute; reflexivity.
Qed.

(** C5, amended.  The first segment of the scenario emits exactly 300 points,
    the point of index n being P_i + (P_(i+1) - P_i) * (n / pointDensity); it
    starts at P_i and stays below P_(i+1); y = z = 0.  In exact arithmetic
    x_n = n; in double precision x_n = n for 275 of the 300 indices and x_n is
    n up to 2^-43 for all of them. *)
Theorem scenario_300_points :
  (exists fx fy fz : list float,
     interpolate_ECEF (PathInterpolatorECEF_init (Some 100%float)) 0
       [0; 300]%float [0; 0]%float [0; 0]%float 2
     = Ok (fx, fy, fz)
     /\ length fx = 300%nat
     /\ fx = map (fun n => PrimFloat.add 0 (PrimFloat.mul
                    (PrimFloat.sub 300 0)
                    (PrimFloat.div (float_of_Z n) (float_of_Z 300))))
               (range 300)
     /\ fy = repeat 0%float 300
     /\ fz = repeat 0%float 300
     /\ nth 0 fx 1%float = 0%float
     /\ forallb (fun x => PrimFloat.ltb x 300) fx = true
     /\ forallb (fun p => close_to (fst p) (snd p)) (combine fx (range 300))
        = true
     /\ length (filter (fun p => exactly (fst p) (snd p))
                  (combine fx (range 300))) = 275%nat)
  /\ interpolate_ECEF (PathInterpolatorECEF_init (Some 100%R)) 0
       [0; 300]%R [0; 0]%R [0; 0]%R 2
     = Ok (map IZR (range 300),
           map (fun _ => 0%R) (range 300),
           map (fun _ => 0%R) (range 300)).
Proof.
  split.
  - eexists _, _, _; split; [ vm_compute; reflexivity | ].
    repeat split; vm_compute; reflexivity.
  - rewrite interpolate_ECEF_vanilla_exactR
      by first [ reflexivity | lia | cbn; lra ].
    unfold emitted_segment, at_index.
    change (centimetersPerPoint (PathInterpolatorECEF_init (Some 100%R)))
      with 100%R.
    change (nth (Z.to_nat 0) [0; 300]%R 0%R) with 0%R.
    change (nth (Z.to_nat (0 + 1)) [0; 300]%R 0%R) with 300%R.
    change (nth (Z.to_nat 0) [0; 0]%R 0%R) with 0%R.
    change (nth (Z.to_nat (0 + 1)) [0; 0]%R 0%R) with 0%R.
    assert (Hd : euclidian_distance_3d 0%R 0%R 0%R 300%R 0%R 0%R = 300%R).
    { change (euclidian_distance_3d 0%R 0%R 0%R 300%R 0%R 0%R)
        with (R_sqrt.sqrt ((300 - 0) * (300 - 0) + (0 - 0) * (0 - 0)
                           + (0 - 0) * (0 - 0))%R).
      replace ((300 - 0) * (300 - 0) + (0 - 0) * (0 - 0)
               + (0 - 0) * (0 - 0))%R with (300 * 300)%R by lra.
      apply sqrt_square; lra. }
    rewrite Hd.
    replace (300 / (100 / 100))%R with (IZR 300) by lra.
    rewrite Rtrunc_nonneg, ZfloorZ by lra.
    apply f_equal; apply f_equal2; [ apply f_equal2 | ];
      apply map_ext; intros n; unfold sample; field.
Qed.

(** ** Fewer than two coarse points *)




(** ** Zero and negative spacings *)


Lemma interpolate_ECEF_vanilla_zero (self : @PathInterpolatorECEF R) i
    relativeX relativeY relativeZ numberOfCoarsePoints :
  Z.of_nat (length relativeX) = numberOfCoarsePoints ->
  Z.of_nat (length relativeY) = numberOfCoarsePoints ->
  Z.of_nat (length relativeZ) = numberOfCoarsePoints ->
  (0 <= i < numberOfCoarsePoints - 1)%Z ->
  centimetersPerPoint self = 0%R ->
  interpolate_ECEF self i relativeX relativeY relativeZ numberOfCoarsePoints
  = Raise ZeroDivisionError.
Proof.
  intros HX HY HZ Hi Hc; unfold interpolate_ECEF.
  destruct (Z.ltb_spec i (numberOfCoarsePoints - 1)); [ | lia ].
  rewrite !(subscript_nth _ 0%R) by lia; cbn [bind].
  now rewrite Hc, get_point_density_ECEF_zero.
Qed.


Lemma range_positive (k : Z) :
  (0 < k)%Z -> range k = 0%Z :: map Z.of_nat (seq 1 (Z.to_nat k - 1)).
Proof.
  intros Hk; unfold range.
  replace (Z.to_nat k) with (S (Z.to_nat k - 1)) at 1 by lia.
  reflexivity.
Qed.



(** ** The three position lists have one length *)

(** C10.  Whatever the index, the coarse lists and the arithmetic, the three
    lists [interpolate_ECEF] returns have one length, and so have the three
    accumulated position lists after the loop over the segments; and in exact
    arithmetic, on coarse lists of one length and a non-zero spacing, each
    call and the whole loop do return. *)
Theorem interpolated_positions_equal_length :
  (forall (F : Type) (PF : PyFloat F) (self : PathInterpolatorECEF) (i : Z)
          (relativeX relativeY relativeZ : list F) (numberOfCoarsePoints : Z)
          (finePointsX finePointsY finePointsZ : list F),
      interpolate_ECEF self i relativeX relativeY relativeZ
        numberOfCoarsePoints
      = Ok (finePointsX, finePointsY, finePointsZ) ->
      length finePointsX = length finePointsY
      /\ length finePointsY = length finePointsZ)
  /\ (forall (F : Type) (PF : PyFloat F) (self : PathInterpolatorECEF)
             (relativeX relativeY relativeZ : list F)
             (xInterpolatedPositions yInterpolatedPositions
              zInterpolatedPositions : list F),
         interpolation_publish_ECEF self relativeX relativeY relativeZ
         = Ok (xInterpolatedPositions, yInterpolatedPositions,
               zInterpolatedPositions) ->
         length xInterpolatedPositions = length yInterpolatedPositions
         /\ length yInterpolatedPositions = length zInterpolatedPositions)
  /\ (forall (self : @PathInterpolatorECEF R)
             (relativeX relativeY relativeZ : list R),
         length relativeX = length relativeY ->
         length relativeY = length relativeZ ->
         centimetersPerPoint self <> 0%R ->
         (forall i : Z,
             (0 <= i < Z.of_nat (length relativeX))%Z ->
             exists fine,
               interpolate_ECEF self i relativeX relativeY relativeZ
                 (Z.of_nat (length relativeX)) = Ok fine)
         /\ exists positions,
             interpolation_publish_ECEF self relativeX relativeY relativeZ
             = Ok positions).
Proof.
  split; [ | split ].
  - intros F PF self i X Y Z N fx fy fz Hrun.
    exact (interpolate_ECEF_aligned _ _ _ _ _ _ Hrun).
  - intros F PF self X Y Z xs ys zs Hrun.
    exact (interpolation_publish_ECEF_aligned _ _ _ _ Hrun).
  - intros self X Y Z HXY HYZ Hc; split.
    + intros i Hi. now apply interpolate_ECEF_returns_exactR.
    + now apply interpolation_publish_ECEF_returns_exactR.
Qed.

Lemma interpolated_positions_equal_length_witness :
  (length [0; 1; 2]%float = length [0; 0; 0]%float
   /\ length [0; 0; 0]%float = length [0; 0; 0]%float)
  /\ exists positions,
      interpolation_publish_ECEF (PathInterpolatorECEF_init (Some 100%R))
        [0; 3]%R [0; 0]%R [0; 0]%R
      = Ok positions.
Proof.
  split.
  - apply (proj1 interpolated_positions_equal_length float binary64
             (PathInterpolatorECEF_init (Some 100%float)) 0%Z
             [0; 3]%float [0; 0]%float [0; 0]%float 2%Z).
    vm_compute; reflexivity.
  - apply (proj2 (proj2 interpolated_positions_equal_length)
             (PathInterpolatorECEF_init (Some 100%R))
             [0; 3]%R [0; 0]%R [0; 0]%R).
    + reflexivity.
    + reflexivity.
    + cbn; lra.
Defined.

(** * Beyond the specification: the rest of the module *)

(** ** Subscripts out of range *)

Lemma subscript_past_end {A : Type} (l : list A) (k : Z) :
  (Z.of_nat (length l) <= k)%Z -> subscript l k = Raise IndexError.
Proof.
  intros Hk; unfold subscript.
  destruct (Z.ltb_spec k 0); [ lia | ].
  destruct (Z.ltb_spec k (Z.of_nat (length l))); [ lia | ].
  now rewrite andb_false_r.
Qed.

Lemma subscript_cases {A : Type} (l : list A) (k : Z) :
  subscript l k = Raise IndexError \/ exists a, subscript l k = Ok a.
Proof.
  unfold subscript.
  destruct (_ && _)%bool; [ | now left ].
  destruct (nth_error l _) as [ a | ]; [ right; now exists a | now left ].
Qed.

Lemma subscript_nth_error {A : Type} (l : list A) (k : nat) :
  (k < length l)%nat ->
  exists a, nth_error l k = Some a /\ subscript l (Z.of_nat k) = Ok a.
Proof.
  intros Hk.
  destruct (nth_error l k) as [ a | ] eqn:E.
  - exists a; split; [ reflexivity | ].
    rewrite (subscript_nth l a) by lia.
    rewrite Nat2Z.id. now rewrite (nth_error_nth _ _ a E).
  - apply nth_error_None in E; lia.
Qed.

(** ** The planar interpolator: lengths *)

Section LengthsUTM.

Context {F : Type} `{PyFloat F}.

Lemma append_fine_UTM_aligned x0 x1 y0 y1 pointDensity n
    (fine fine' : coords2 F) :
  aligned_UTM fine ->
  append_fine_UTM x0 x1 y0 y1 pointDensity n fine = Ok fine' ->
  aligned_UTM fine'.
Proof.
  destruct fine as [xs ys]; unfold append_fine_UTM, aligned_UTM; cbn [fst snd].
  intros Hxy Hrun.
  bind_ok Hrun. injection Hrun as <-. cbn [fst snd].
  rewrite !length_app; cbn; lia.
Qed.

Lemma emit_UTM_aligned x0 x1 y0 y1 pointDensity ns (fine fine' : coords2 F) :
  aligned_UTM fine ->
  for_each ns (append_fine_UTM x0 x1 y0 y1 pointDensity) fine = Ok fine' ->
  aligned_UTM fine'.
Proof.
  apply (for_each_invariant aligned_UTM).
  intros n s s'; apply append_fine_UTM_aligned.
Qed.

Lemma interpolate_UTM_aligned self i relativeEasting relativeNorthing
    numberOfCoarsePoints (fine : coords2 F) :
  interpolate_UTM self i relativeEasting relativeNorthing numberOfCoarsePoints
    = Ok fine ->
  aligned_UTM fine.
Proof.
  unfold interpolate_UTM; intros Hrun.
  assert (Hnil : aligned_UTM (([], []) : coords2 F)) by reflexivity.
  destruct (i <? numberOfCoarsePoints - 1)%Z;
    destruct (i =? numberOfCoarsePoints - 1)%Z;
    binds_ok;
    repeat match goal with
    | A : aligned_UTM ?s, E : for_each _ _ ?s = Ok _ |- _ =>
        eapply emit_UTM_aligned in E; [ | exact A ]
    end;
    assumption.
Qed.

Lemma interpolation_publish_UTM_aligned self relativeEastings
    relativeNorthings (positions : coords2 F) :
  interpolation_publish_UTM self relativeEastings relativeNorthings
    = Ok positions ->
  aligned_UTM positions.
Proof.
  unfold interpolation_publish_UTM.
  apply for_each_invariant; [ | reflexivity ].
  intros i [xs ys] s' Hs Hrun.
  bind_ok Hrun. destruct a as [fx fy]. injection Hrun as <-.
  apply interpolate_UTM_aligned in E.
  unfold aligned_UTM in *; cbn [fst snd] in *.
  rewrite !length_app; lia.
Qed.

End LengthsUTM.

(** X1.  Whatever the index, the coarse lists and the arithmetic, the two
    lists [interpolate_UTM] returns have one length, and so have the two
    accumulated position lists after the loop over the segments of
    [interpolation_publish_UTM]. *)
Theorem UTM_positions_equal_length :
  (forall (F : Type) (PF : PyFloat F) (self : PathInterpolatorUTM) (i : Z)
          (relativeEasting relativeNorthing : list F)
          (numberOfCoarsePoints : Z)
          (finePointsEasting finePointsNorthing : list F),
      interpolate_UTM self i relativeEasting relativeNorthing
        numberOfCoarsePoints
      = Ok (finePointsEasting, finePointsNorthing) ->
      length finePointsEasting = length finePointsNorthing)
  /\ (forall (F : Type) (PF : PyFloat F) (self : PathInterpolatorUTM)
             (relativeEastings relativeNorthings : list F)
             (eastingInterpolatedPositions
              northingInterpolatedPositions : list F),
         interpolation_publish_UTM self relativeEastings relativeNorthings
         = Ok (eastingInterpolatedPositions, northingInterpolatedPositions) ->
         length eastingInterpolatedPositions
         = length northingInterpolatedPositions).
Proof.
  split.
  - intros F PF self i E N n es ns Hrun.
    exact (interpolate_UTM_aligned _ _ _ _ _ Hrun).
  - intros F PF self E N es ns Hrun.
    exact (interpolation_publish_UTM_aligned _ _ _ Hrun).
Qed.

Lemma UTM_positions_equal_length_witness :
  length [0; 0.25; 0.5; 0.75]%float = length [0; 0; 0; 0]%float
  /\ length [0; 0.25; 0.5; 0.75; 0; 0.25; 0.5; 0.75]%float
     = length [0; 0; 0; 0; 0; 0; 0; 0]%float.
Proof.
  split.
  - apply (proj1 UTM_positions_equal_length float binary64
             (PathInterpolatorUTM_init None) 0%Z
             [0; 1]%float [0; 0]%float 2%Z).
    vm_compute; reflexivity.
  - apply (proj2 UTM_positions_equal_length float binary64
             (PathInterpolatorUTM_init None)
             [0; 1]%float [0; 0]%float).
    vm_compute; reflexivity.
Defined.

(** ** The planar interpolator: the configured spacing *)

(** X2.  The planar interpolator never reads the spacing it is configured
    with: both of its steps pass the literal 25 to the density.  A call of
    [set_dist_between_points] changes neither the result of a step nor that
    of the loop over the segments, whatever the arithmetic. *)
Theorem UTM_ignores_configured_spacing {F : Type} `{PyFloat F}
    (self : PathInterpolatorUTM) (centimetersPerPoint : F)
    (relativeEastings relativeNorthings : list F) :
  (forall i numberOfCoarsePoints,
      interpolate_UTM (set_dist_between_points_UTM self centimetersPerPoint)
        i relativeEastings relativeNorthings numberOfCoarsePoints
      = interpolate_UTM self i relativeEastings relativeNorthings
          numberOfCoarsePoints)
  /\ interpolation_publish_UTM
       (set_dist_between_points_UTM self centimetersPerPoint)
       relativeEastings relativeNorthings
     = interpolation_publish_UTM self relativeEastings relativeNorthings.
Proof.
  split; reflexivity.
Qed.

(** ** The Cartesian interpolator: the configured spacing *)

(** X3.  At the final index, and past it, a step of the Cartesian
    interpolator does not read the configured spacing either: a call of
    [set_dist_between_points] leaves its result as it was. *)
Theorem final_step_ignores_configured_spacing {F : Type} `{PyFloat F}
    (self : PathInterpolatorECEF) (centimetersPerPoint : F) (i : Z)
    (relativeX relativeY relativeZ : list F) (numberOfCoarsePoints : Z) :
  (numberOfCoarsePoints - 1 <= i)%Z ->
  interpolate_ECEF (set_dist_between_points self centimetersPerPoint) i
    relativeX relativeY relativeZ numberOfCoarsePoints
  = interpolate_ECEF self i relativeX relativeY relativeZ
      numberOfCoarsePoints.
Proof.
  intros Hi; unfold interpolate_ECEF.
  destruct (Z.ltb_spec i (numberOfCoarsePoints - 1)); [ lia | ].
  reflexivity.
Qed.

Lemma final_step_ignores_configured_spacing_witness :
  interpolate_ECEF
    (set_dist_between_points (PathInterpolatorECEF_init None) 100%float) 1
    [0; 3]%float [0; 0]%float [0; 0]%float 2
  = interpolate_ECEF (PathInterpolatorECEF_init None) 1
      [0; 3]%float [0; 0]%float [0; 0]%float 2.
Proof.
  apply final_step_ignores_configured_spacing; lia.
Defined.

(** ** Indices out of range *)

(** X4.  An index past the final one is no error: neither branch of a step
    runs, no list is read, and the step returns empty lists.  This holds for
    both interpolators, whatever the lists and the arithmetic. *)
Theorem index_past_the_end_yields_nothing {F : Type} `{PyFloat F}
    (selfECEF : PathInterpolatorECEF) (selfUTM : PathInterpolatorUTM) (i : Z)
    (relativeX relativeY relativeZ : list F) (numberOfCoarsePoints : Z) :
  (numberOfCoarsePoints - 1 < i)%Z ->
  interpolate_ECEF selfECEF i relativeX relativeY relativeZ
    numberOfCoarsePoints = Ok ([], [], [])
  /\ interpolate_UTM selfUTM i relativeX relativeY numberOfCoarsePoints
     = Ok ([], []).
Proof.
  intros Hi; unfold interpolate_ECEF, interpolate_UTM.
  destruct (Z.ltb_spec i (numberOfCoarsePoints - 1)); [ lia | ].
  destruct (Z.eqb_spec i (numberOfCoarsePoints - 1)); [ lia | ].
  split; reflexivity.
Qed.

Lemma index_past_the_end_yields_nothing_witness :
  interpolate_ECEF (PathInterpolatorECEF_init None) 2
    [0; 3]%float [0; 0]%float [0; 0]%float 2 = Ok ([], [], [])
  /\ interpolate_UTM (PathInterpolatorUTM_init None) 2
       [0; 3]%float [0; 0]%float 2 = Ok ([], []).
Proof.
  apply index_past_the_end_yields_nothing; lia.
Defined.

(** X5.  The number of coarse points is a parameter of its own, and the
    lists are not checked against it.  A step of index [i], from 0 to the
    final one, on a [relativeY] (a [relativeNorthing]) that has no element of
    index [i] raises [IndexError], whatever the other lists and the
    arithmetic: the density reads [relativeY[i+1]], or [relativeY[i]] at the
    final index, before any point is computed. *)
Theorem short_list_raises_IndexError {F : Type} `{PyFloat F}
    (selfECEF : PathInterpolatorECEF) (selfUTM : PathInterpolatorUTM) (i : Z)
    (relativeX relativeY relativeZ : list F) (numberOfCoarsePoints : Z) :
  (0 <= i <= numberOfCoarsePoints - 1)%Z ->
  (Z.of_nat (length relativeY) <= i)%Z ->
  interpolate_ECEF selfECEF i relativeX relativeY relativeZ
    numberOfCoarsePoints = Raise IndexError
  /\ interpolate_UTM selfUTM i relativeX relativeY numberOfCoarsePoints
     = Raise IndexError.
Proof.
  intros Hi HY; unfold interpolate_ECEF, interpolate_UTM.
  destruct (Z.ltb_spec i (numberOfCoarsePoints - 1)).
  - rewrite !(@subscript_past_end _ relativeY (i + 1)%Z) by lia.
    split;
      repeat match goal with
      | |- context [ bind (subscript ?l ?k) _ ] =>
          destruct (subscript_cases l k) as [ -> | [ ? -> ] ];
          cbn [bind]; [ reflexivity | ]
      end;
      reflexivity.
  - destruct (Z.eqb_spec i (numberOfCoarsePoints - 1)); [ | lia ].
    cbn [bind].
    rewrite !(@subscript_past_end _ relativeY i) by lia.
    split;
      repeat match goal with
      | |- context [ bind (subscript ?l ?k) _ ] =>
          destruct (subscript_cases l k) as [ -> | [ ? -> ] ];
          cbn [bind]; [ reflexivity | ]
      end;
      reflexivity.
Qed.

Lemma short_list_raises_IndexError_witness :
  interpolate_ECEF (PathInterpolatorECEF_init None) 1
    [0; 3; 6]%float [0]%float [0; 0; 0]%float 3 = Raise IndexError
  /\ interpolate_UTM (PathInterpolatorUTM_init None) 1
       [0; 3; 6]%float [0]%float 3 = Raise IndexError.
Proof.
  apply short_list_raises_IndexError; cbn; lia.
Defined.

(** ** How many points a step emits *)

Section Counts.

Context {F : Type} `{PyFloat F}.

Lemma emit_ECEF_length x0 x1 y0 y1 z0 z1 pointDensity ns :
  forall (xs ys zs xs' ys' zs' : list F),
    for_each ns (append_fine_ECEF x0 x1 y0 y1 z0 z1 pointDensity) (xs, ys, zs)
    = Ok (xs', ys', zs') ->
    length xs' = (length xs + length ns)%nat.
Proof.
  induction ns as [ | n ns IH ]; intros xs ys zs xs' ys' zs' Hrun.
  - cbn in Hrun. injection Hrun as <- <- <-. cbn; lia.
  - cbn [for_each] in Hrun. bind_ok Hrun.
    unfold append_fine_ECEF in E. bind_ok E. injection E as <-.
    apply IH in Hrun. rewrite Hrun, length_app; cbn; lia.
Qed.

Lemma length_range (k : Z) : length (range k) = Z.to_nat k.
Proof.
  unfold range. now rewrite length_map, length_seq.
Qed.

(** The eastings a run of the loop of [interpolate_UTM] appends are those of
    any other run on the same eastings and density. *)
Lemma emit_UTM_eastings x0 x1 y0 y1 y0' y1' pointDensity ns :
  forall (xs ys ys' xs1 ys1 xs2 ys2 : list F),
    for_each ns (append_fine_UTM x0 x1 y0 y1 pointDensity) (xs, ys)
    = Ok (xs1, ys1) ->
    for_each ns (append_fine_UTM x0 x1 y0' y1' pointDensity) (xs, ys')
    = Ok (xs2, ys2) ->
    xs1 = xs2.
Proof.
  induction ns as [ | n ns IH ]; intros xs ys ys' xs1 ys1 xs2 ys2 Hrun Hrun'.
  - cbn in Hrun, Hrun'. congruence.
  - cbn [for_each] in Hrun, Hrun'. bind_ok Hrun. bind_ok Hrun'.
    unfold append_fine_UTM in E, E0. bind_ok E. bind_ok E0.
    injection E as <-. injection E0 as <-.
    assert (a1 = a3) by congruence; subst a3.
    eapply IH; eassumption.
Qed.

End Counts.

(** X6.  A step below the final index that returns emits as many points as
    the density it computed, none when that density is zero or negative; the
    density is the one of the values the code passes, [relativeX[i]] taken
    twice.  Whatever the arithmetic, negative indices included. *)
Theorem vanilla_step_emits_pointDensity_points {F : Type} `{PyFloat F}
    (self : PathInterpolatorECEF) (i : Z)
    (relativeX relativeY relativeZ : list F) (numberOfCoarsePoints : Z)
    (x0 z0 x1 y1 z1 : F) (pointDensity : Z)
    (finePointsX finePointsY finePointsZ : list F) :
  (i < numberOfCoarsePoints - 1)%Z ->
  subscript relativeX i = Ok x0 ->
  subscript relativeZ i = Ok z0 ->
  subscript relativeX (i + 1) = Ok x1 ->
  subscript relativeY (i + 1) = Ok y1 ->
  subscript relativeZ (i + 1) = Ok z1 ->
  get_point_density_ECEF self x0 x0 z0 x1 y1 z1 (centimetersPerPoint self)
  = Ok pointDensity ->
  interpolate_ECEF self i relativeX relativeY relativeZ numberOfCoarsePoints
  = Ok (finePointsX, finePointsY, finePointsZ) ->
  length finePointsX = Z.to_nat pointDensity
  /\ length finePointsY = Z.to_nat pointDensity
  /\ length finePointsZ = Z.to_nat pointDensity.
Proof.
  intros Hi HX0 HZ0 HX1 HY1 HZ1 Hd Hrun.
  pose proof (interpolate_ECEF_aligned _ _ _ _ _ _ Hrun) as [Hxy Hyz].
  enough (length finePointsX = Z.to_nat pointDensity) by lia.
  unfold interpolate_ECEF in Hrun.
  destruct (Z.ltb_spec i (numberOfCoarsePoints - 1)); [ | lia ].
  destruct (Z.eqb_spec i (numberOfCoarsePoints - 1)); [ lia | ].
  rewrite HX0, HZ0, HX1, HY1, HZ1 in Hrun; cbn [bind] in Hrun.
  rewrite Hd in Hrun; cbn [bind] in Hrun.
  bind_ok Hrun. cbn [bind] in Hrun. injection Hrun as ->.
  bind_ok E.
  apply emit_ECEF_length in E. now rewrite E, length_range.
Qed.

Lemma vanilla_step_emits_pointDensity_points_witness :
  length [0; 1; 2]%float = Z.to_nat 3
  /\ length [0; 0; 0]%float = Z.to_nat 3
  /\ length [0; 0; 0]%float = Z.to_nat 3.
Proof.
  apply (@vanilla_step_emits_pointDensity_points float binary64
           (PathInterpolatorECEF_init (Some 100%float)) 0%Z
           [0; 3]%float [0; 0]%float [0; 0]%float 2%Z
           0%float 0%float 3%float 0%float 0%float 3%Z);
    first [ lia | vm_compute; reflexivity ].
Defined.

(** ** The density of the planar interpolator *)

(** X7.  [get_point_density_UTM] does not read the northing of its first
    point, and a step of [interpolate_UTM] below the final index reads the
    northings for its density at index [i+1] alone: two runs on northing
    lists that agree there emit the same number of points and the same
    eastings, whatever the northing of the first point of the segment. *)
Theorem UTM_density_misses_northing_of_first_point {F : Type} `{PyFloat F}
    (self : PathInterpolatorUTM) (i : Z)
    (relativeEasting relativeNorthing relativeNorthing' : list F)
    (numberOfCoarsePoints : Z)
    (finePointsEasting finePointsNorthing
     finePointsEasting' finePointsNorthing' : list F) :
  (i < numberOfCoarsePoints - 1)%Z ->
  subscript relativeNorthing (i + 1) = subscript relativeNorthing' (i + 1) ->
  interpolate_UTM self i relativeEasting relativeNorthing
    numberOfCoarsePoints
  = Ok (finePointsEasting, finePointsNorthing) ->
  interpolate_UTM self i relativeEasting relativeNorthing'
    numberOfCoarsePoints
  = Ok (finePointsEasting', finePointsNorthing') ->
  finePointsEasting = finePointsEasting'.
Proof.
  intros Hi HN Hrun Hrun'.
  unfold interpolate_UTM in Hrun, Hrun'.
  destruct (Z.ltb_spec i (numberOfCoarsePoints - 1)); [ | lia ].
  destruct (Z.eqb_spec i (numberOfCoarsePoints - 1)); [ lia | ].
  rewrite <- HN in Hrun'.
  bind_ok Hrun. cbn [bind] in Hrun. injection Hrun as ->.
  bind_ok Hrun'. cbn [bind] in Hrun'. injection Hrun' as ->.
  bind_ok E. bind_ok E0.
  repeat match goal with
  | A : Ok ?a = Ok ?b |- _ => injection A as ->
  | A : ?m = Ok ?a, B : ?m = Ok ?b |- _ =>
      assert (a = b) by congruence; subst b; clear B
  end.
  eapply emit_UTM_eastings; eassumption.
Qed.

Lemma UTM_density_misses_northing_of_first_point_witness :
  [0; 0.25; 0.5; 0.75]%float = [0; 0.25; 0.5; 0.75]%float.
Proof.
  apply (@UTM_density_misses_northing_of_first_point float binary64
           (PathInterpolatorUTM_init None) 0%Z
           [0; 1]%float [0; 0]%float [7; 0]%float 2%Z
           [0; 0.25; 0.5; 0.75]%float [0; 0; 0; 0]%float
           [0; 0.25; 0.5; 0.75]%float [7; 5.25; 3.5; 1.75]%float);
    first [ lia | vm_compute; reflexivity ].
Defined.

(** ** The poses of the published path *)

Section Poses.

Context {F : Type}.


Lemma path_poses_ECEF_returns (xs ys zs : list F) :
  length xs = length ys -> length ys = length zs ->
  forall (n a : nat) i0 poses,
    (a + n <= length ys)%nat ->
    exists i' poses',
      for_each (map Z.of_nat (seq a n)) (append_pose_ECEF xs ys zs)
        (i0, poses)
      = Ok (i', poses ++ poses')
      /\ length poses' = n
      /\ forall k p,
          nth_error poses' k = Some p ->
          header_seq p = Z.of_nat (a + k)
          /\ nth_error xs (a + k) = Some (position_x p)
          /\ nth_error ys (a + k) = Some (position_y p)
          /\ nth_error zs (a + k) = Some (position_z p).
Proof.
  intros Hxy Hyz; induction n as [ | n IH ]; intros a i0 poses Han.
  - exists i0, []. cbn. rewrite app_nil_r. repeat split;
      destruct k; discriminate.
  - cbn [seq map for_each]. unfold append_pose_ECEF at 1; cbn beta iota.
    destruct (@subscript_nth_error _ xs a) as (x & Hx & ->); [ lia | ].
    destruct (@subscript_nth_error _ ys a) as (y & Hy & ->); [ lia | ].
    destruct (@subscript_nth_error _ zs a) as (z & Hz & ->); [ lia | ].
    cbn [bind].
    match goal with
    | |- context [ poses ++ [ ?p ] ] => set (p0 := p)
    end.
    destruct (IH (S a) (Some (Z.of_nat a)) (poses ++ [p0]))
      as (i' & poses' & Hrun & Hlen & Hk); [ lia | ].
    exists i', (p0 :: poses'). rewrite Hrun, <- app_assoc.
    split; [ reflexivity | split; [ cbn; lia | ] ].
    intros [ | k ] p Hp.
    + cbn in Hp. injection Hp as <-. rewrite Nat.add_0_r. now cbn.
    + cbn in Hp. apply Hk in Hp.
      now replace (a + S k)%nat with (S a + k)%nat by lia.
Qed.

Lemma path_poses_UTM_returns (xs ys : list F) :
  length xs = length ys ->
  forall (n a : nat) i0 poses,
    (a + n <= length xs)%nat ->
    exists i' poses',
      for_each (map Z.of_nat (seq a n)) (append_pose_UTM xs ys) (i0, poses)
      = Ok (i', poses ++ poses')
      /\ length poses' = n
      /\ forall k p,
          nth_error poses' k = Some p ->
          header_seq_UTM p = Z.of_nat (a + k)
          /\ nth_error xs (a + k) = Some (position_x_UTM p)
          /\ nth_error ys (a + k) = Some (position_y_UTM p).
Proof.
  intros Hxy; induction n as [ | n IH ]; intros a i0 poses Han.
  - exists i0, []. cbn. rewrite app_nil_r. repeat split;
      destruct k; discriminate.
  - cbn [seq map for_each]. unfold append_pose_UTM at 1; cbn beta iota.
    destruct (@subscript_nth_error _ xs a) as (x & Hx & ->); [ lia | ].
    destruct (@subscript_nth_error _ ys a) as (y & Hy & ->); [ lia | ].
    cbn [bind].
    match goal with
    | |- context [ poses ++ [ ?p ] ] => set (p0 := p)
    end.
    destruct (IH (S a) (Some (Z.of_nat a)) (poses ++ [p0]))
      as (i' & poses' & Hrun & Hlen & Hk); [ lia | ].
    exists i', (p0 :: poses'). rewrite Hrun, <- app_assoc.
    split; [ reflexivity | split; [ cbn; lia | ] ].
    intros [ | k ] p Hp.
    + cbn in Hp. injection Hp as <-. rewrite Nat.add_0_r. now cbn.
    + cbn in Hp. apply Hk in Hp.
      now replace (a + S k)%nat with (S a + k)%nat by lia.
Qed.

End Poses.

(** X8.  The loop that builds the path of [interpolation_publish_ECEF] runs
    over the length of the y positions and subscripts all three lists.  On
    the positions the interpolation pass returns it raises nothing, whatever
    the arithmetic: there is one pose for each fine point, and the pose of
    index [k] carries the sequence number [k] and the fine point of index
    [k]. *)
Theorem path_poses_ECEF_follow_positions {F : Type} `{PyFloat F}
    (self : PathInterpolatorECEF) (relativeX relativeY relativeZ : list F)
    (xInterpolatedPositions yInterpolatedPositions
     zInterpolatedPositions : list F) (i_before : option Z) :
  interpolation_publish_ECEF self relativeX relativeY relativeZ
  = Ok (xInterpolatedPositions, yInterpolatedPositions,
        zInterpolatedPositions) ->
  exists i poses,
    path_poses_ECEF i_before xInterpolatedPositions yInterpolatedPositions
      zInterpolatedPositions = Ok (i, poses)
    /\ length poses = length xInterpolatedPositions
    /\ forall k p,
        nth_error poses k = Some p ->
        header_seq p = Z.of_nat k
        /\ nth_error xInterpolatedPositions k = Some (position_x p)
        /\ nth_error yInterpolatedPositions k = Some (position_y p)
        /\ nth_error zInterpolatedPositions k = Some (position_z p).
Proof.
  intros Hrun. apply interpolation_publish_ECEF_aligned in Hrun as [Hxy Hyz].
  unfold path_poses_ECEF, range. rewrite Nat2Z.id.
  destruct (@path_poses_ECEF_returns _ xInterpolatedPositions
              yInterpolatedPositions zInterpolatedPositions Hxy Hyz
              (length yInterpolatedPositions) 0%nat i_before [])
    as (i & poses & Hposes & Hlen & Hk); [ lia | ].
  exists i, poses. split; [ exact Hposes | split; [ lia | exact Hk ] ].
Qed.

Lemma path_poses_ECEF_follow_positions_witness :
  exists i poses,
    path_poses_ECEF None [0; 0.25; 0.5]%float [0; 0; 0]%float [0; 0; 0]%float
    = Ok (i, poses)
    /\ length poses = length [0; 0.25; 0.5]%float
    /\ forall k p,
        nth_error poses k = Some p ->
        header_seq p = Z.of_nat k
        /\ nth_error [0; 0.25; 0.5]%float k = Some (position_x p)
        /\ nth_error [0; 0; 0]%float k = Some (position_y p)
        /\ nth_error [0; 0; 0]%float k = Some (position_z p).
Proof.
  apply (@path_poses_ECEF_follow_positions float binary64
           (PathInterpolatorECEF_init (Some 100%float))
           [0; 0.75]%float [0; 0]%float [0; 0]%float).
  vm_compute; reflexivity.
Defined.

(** X9.  The same for the loop that builds the path of
    [interpolation_publish_UTM], which runs over the length of the eastings
    and subscripts the northings as well. *)
Theorem path_poses_UTM_follow_positions {F : Type} `{PyFloat F}
    (self : PathInterpolatorUTM) (relativeEastings relativeNorthings : list F)
    (eastingInterpolatedPositions northingInterpolatedPositions : list F)
    (i_before : option Z) :
  interpolation_publish_UTM self relativeEastings relativeNorthings
  = Ok (eastingInterpolatedPositions, northingInterpolatedPositions) ->
  exists i poses,
    path_poses_UTM i_before eastingInterpolatedPositions
      northingInterpolatedPositions = Ok (i, poses)
    /\ length poses = length eastingInterpolatedPositions
    /\ forall k p,
        nth_error poses k = Some p ->
        header_seq_UTM p = Z.of_nat k
        /\ nth_error eastingInterpolatedPositions k
           = Some (position_x_UTM p)
        /\ nth_error northingInterpolatedPositions k
           = Some (position_y_UTM p).
Proof.
  intros Hrun. apply interpolation_publish_UTM_aligned in Hrun.
  unfold aligned_UTM in Hrun; cbn [fst snd] in Hrun.
  unfold path_poses_UTM, range. rewrite Nat2Z.id.
  destruct (@path_poses_UTM_returns _ eastingInterpolatedPositions
              northingInterpolatedPositions Hrun
              (length eastingInterpolatedPositions) 0%nat i_before [])
    as (i & poses & Hposes & Hlen & Hk); [ lia | ].
  exists i, poses. split; [ exact Hposes | split; [ lia | exact Hk ] ].
Qed.

Lemma path_poses_UTM_follow_positions_witness :
  exists i poses,
    path_poses_UTM None [0; 0.25; 0.5; 0.75; 0; 0.25; 0.5; 0.75]%float
      [0; 0; 0; 0; 0; 0; 0; 0]%float
    = Ok (i, poses)
    /\ length poses
       = length [0; 0.25; 0.5; 0.75; 0; 0.25; 0.5; 0.75]%float
    /\ forall k p,
        nth_error poses k = Some p ->
        header_seq_UTM p = Z.of_nat k
        /\ nth_error [0; 0.25; 0.5; 0.75; 0; 0.25; 0.5; 0.75]%float k
           = Some (position_x_UTM p)
        /\ nth_error [0; 0; 0; 0; 0; 0; 0; 0]%float k
           = Some (position_y_UTM p).
Proof.
  apply (@path_poses_UTM_follow_positions float binary64
           (PathInterpolatorUTM_init None) [0; 1]%float [0; 0]%float).
  vm_compute; reflexivity.
Defined.



(** ** Double precision: a spacing whose hundredth is zero *)

Lemma get_point_density_ECEF_underflow (self : @PathInterpolatorECEF float)
    (x1 y1 z1 x2 y2 z2 spacing : float) :
  PrimFloat.eqb (PrimFloat.div spacing 100) 0 = true ->
  get_point_density_ECEF self x1 y1 z1 x2 y2 z2 spacing
  = Raise ZeroDivisionError.
Proof.
  intros Hs; unfold get_point_density_ECEF.
  cbn [fdiv of_int binary64].
  change (float_of_Z 100) with 100%float.
  unfold float_div.
  change (PrimFloat.eqb 100 PrimFloat.zero) with false.
  cbn [bind]. change PrimFloat.zero with 0%float. now rewrite Hs.
Qed.

(** X11.  In double precision a run on two coarse points or more raises
    [ZeroDivisionError] at its first segment as soon as
    [centimetersPerPoint / 100.0] is zero: for the spacings 0.0 and -0.0, and
    for the positive and negative spacings so small that the quotient
    underflows to zero. *)
Theorem zero_spacing_raises_in_double_precision (spacing : float)
    (relativeX relativeY relativeZ : list float) :
  PrimFloat.eqb (PrimFloat.div spacing 100) 0 = true ->
  (2 <= length relativeX)%nat ->
  (2 <= length relativeY)%nat ->
  (2 <= length relativeZ)%nat ->
  interpolation_publish_ECEF (PathInterpolatorECEF_init (Some spacing))
    relativeX relativeY relativeZ
  = Raise ZeroDivisionError.
Proof.
  intros Hs HX HY HZ; unfold interpolation_publish_ECEF.
  rewrite range_positive by lia; cbn [for_each].
  unfold interpolate_ECEF at 1.
  destruct (Z.ltb_spec 0 (Z.of_nat (length relativeX) - 1)); [ | lia ].
  rewrite !(subscript_nth _ 0%float) by lia; cbn [bind].
  cbn [PathInterpolatorECEF_init centimetersPerPoint].
  rewrite get_point_density_ECEF_underflow by assumption.
  reflexivity.
Qed.

Lemma zero_spacing_raises_in_double_precision_witness :
  interpolation_publish_ECEF
    (PathInterpolatorECEF_init (Some 0x1p-1074%float))
    [0; 3]%float [0; 0]%float [0; 0]%float
  = Raise ZeroDivisionError.
Proof.
  apply zero_spacing_raises_in_double_precision;
    first [ vm_compute; reflexivity | cbn; lia ].
Defined.

(** ** Exact arithmetic: where the fine points lie *)

Lemma nth_range (k : nat) (d : Z) :
  (k < Z.to_nat d)%nat -> nth k (range d) 0%Z = Z.of_nat k.
Proof.
  intros Hk; unfold range.
  change 0%Z with (Z.of_nat 0).
  rewrite map_nth, seq_nth by assumption. reflexivity.
Qed.

Lemma nth_samples (x0 x1 : R) (d : Z) (k : nat) :
  (k < Z.to_nat d)%nat ->
  nth k (map (sample x0 x1 d) (range d)) 0%R
  = (x0 + (x1 - x0) * (INR k / INR (Z.to_nat d)))%R.
Proof.
  intros Hk.
  rewrite (nth_indep _ 0%R (sample x0 x1 d 0%Z))
    by now rewrite length_map, length_range.
  rewrite map_nth, nth_range by assumption.
  unfold sample. rewrite !INR_IZR_INZ, Z2Nat.id by lia. reflexivity.
Qed.

(** X12.  In exact arithmetic the fine points a step below the final index
    returns are evenly spaced on the segment from P_i to P_(i+1): the point
    of index [k] out of [m] is P_i + (P_(i+1) - P_i) * (k/m) on each axis,
    with 0 <= k/m < 1; the first is P_i and none reaches P_(i+1). *)
Theorem fine_points_evenly_spaced (self : @PathInterpolatorECEF R) (i : Z)
    (relativeX relativeY relativeZ : list R) (numberOfCoarsePoints : Z)
    (finePointsX finePointsY finePointsZ : list R) :
  Z.of_nat (length relativeX) = numberOfCoarsePoints ->
  Z.of_nat (length relativeY) = numberOfCoarsePoints ->
  Z.of_nat (length relativeZ) = numberOfCoarsePoints ->
  (0 <= i < numberOfCoarsePoints - 1)%Z ->
  interpolate_ECEF self i relativeX relativeY relativeZ numberOfCoarsePoints
  = Ok (finePointsX, finePointsY, finePointsZ) ->
  forall k : nat,
    (k < length finePointsX)%nat ->
    let t := (INR k / INR (length finePointsX))%R in
    (0 <= t < 1)%R
    /\ nth k finePointsX 0%R
       = (at_index relativeX i
          + (at_index relativeX (i + 1) - at_index relativeX i) * t)%R
    /\ nth k finePointsY 0%R
       = (at_index relativeY i
          + (at_index relativeY (i + 1) - at_index relativeY i) * t)%R
    /\ nth k finePointsZ 0%R
       = (at_index relativeZ i
          + (at_index relativeZ (i + 1) - at_index relativeZ i) * t)%R.
Proof.
  intros HX HY HZ Hi Hrun k Hk t.
  destruct (Req_dec_T (centimetersPerPoint self) 0%R) as [ Hc | Hc ].
  { rewrite interpolate_ECEF_vanilla_zero in Hrun by assumption.
    discriminate Hrun. }
  rewrite interpolate_ECEF_vanilla_exactR in Hrun by assumption.
  unfold emitted_segment in Hrun. cbv zeta in Hrun.
  set (m := Rtrunc _) in Hrun.
  injection Hrun as <- <- <-.
  rewrite length_map, length_range in Hk.
  subst t. rewrite length_map, length_range.
  split; [ | now rewrite !nth_samples by assumption ].
  assert (0 < INR (Z.to_nat m))%R as Hm by (apply lt_0_INR; lia).
  apply lt_INR in Hk. pose proof (pos_INR k) as H0.
  split.
  - apply Rmult_le_pos; [ assumption | left; now apply Rinv_0_lt_compat ].
  - apply (Rmult_lt_reg_r _ _ _ Hm). field_simplify; lra.
Qed.

Lemma fine_points_evenly_spaced_witness :
  let t := (INR 1 / INR (length [0; 1; 2]%R))%R in
  (0 <= t < 1)%R
  /\ nth 1 [0; 1; 2]%R 0%R
     = (at_index [0; 3]%R 0
        + (at_index [0; 3]%R (0 + 1) - at_index [0; 3]%R 0) * t)%R
  /\ nth 1 [0; 0; 0]%R 0%R
     = (at_index [0; 0]%R 0
        + (at_index [0; 0]%R (0 + 1) - at_index [0; 0]%R 0) * t)%R
  /\ nth 1 [0; 0; 0]%R 0%R
     = (at_index [0; 0]%R 0
        + (at_index [0; 0]%R (0 + 1) - at_index [0; 0]%R 0) * t)%R.
Proof.
  apply (@fine_points_evenly_spaced (PathInterpolatorECEF_init (Some 100%R))
           0%Z [0; 3]%R [0; 0]%R [0; 0]%R 2%Z
           [0; 1; 2]%R [0; 0; 0]%R [0; 0; 0]%R);
    try first [ reflexivity | lia | cbn; lia ].
  rewrite interpolate_ECEF_vanilla_exactR
    by first [ reflexivity | lia | cbn; lra ].
  unfold emitted_segment, at_index.
  change (centimetersPerPoint (PathInterpolatorECEF_init (Some 100%R)))
    with 100%R.
  change (nth (Z.to_nat 0) [0; 3]%R 0%R) with 0%R.
  change (nth (Z.to_nat (0 + 1)) [0; 3]%R 0%R) with 3%R.
  change (nth (Z.to_nat 0) [0; 0]%R 0%R) with 0%R.
  change (nth (Z.to_nat (0 + 1)) [0; 0]%R 0%R) with 0%R.
  assert (Hd : euclidian_distance_3d 0%R 0%R 0%R 3%R 0%R 0%R = 3%R).
  { change (euclidian_distance_3d 0%R 0%R 0%R 3%R 0%R 0%R)
      with (R_sqrt.sqrt ((3 - 0) * (3 - 0) + (0 - 0) * (0 - 0)
                         + (0 - 0) * (0 - 0))%R).
    replace ((3 - 0) * (3 - 0) + (0 - 0) * (0 - 0)
             + (0 - 0) * (0 - 0))%R with (3 * 3)%R by lra.
    apply sqrt_square; lra. }
  rewrite Hd.
  replace (3 / (100 / 100))%R with (IZR 3) by lra.
  rewrite Rtrunc_nonneg, ZfloorZ by lra.
  change (range 3) with [0%Z; 1%Z; 2%Z]. cbn [map]. unfold sample.
  apply f_equal; apply f_equal2; [ apply f_equal2 | ];
    repeat (apply f_equal2; [ lra | ]); reflexivity.
Defined.

(** ** Exact arithmetic: the planar interpolator always returns *)

Section ExactUTM.

Open Scope R_scope.

Lemma get_point_density_UTM_exactR self e1 n1 e2 n2 cpp :
  cpp <> 0 ->
  get_point_density_UTM self e1 n1 e2 n2 cpp
  = Ok (Rtrunc (euclidian_distance_2d e1 e1 e2 n2 / (cpp / 100))).
Proof.
  intros Hc; unfold get_point_density_UTM.
  change (of_int 100) with 100.
  rewrite (fdiv_exactR cpp) by lra; cbn [bind].
  rewrite fdiv_exactR; [ reflexivity | ].
  intros E; apply Hc; lra.
Qed.

Lemma emit_UTM_exactR x0 x1 y0 y1 pointDensity ns (xs ys : list R) :
  pointDensity <> 0%Z ->
  for_each ns (append_fine_UTM x0 x1 y0 y1 pointDensity) (xs, ys)
  = Ok (xs ++ map (sample x0 x1 pointDensity) ns,
        ys ++ map (sample y0 y1 pointDensity) ns).
Proof.
  intros Hd; revert xs ys.
  induction ns as [ | n ns IH ]; intros xs ys; cbn [for_each map].
  - now rewrite !app_nil_r.
  - unfold append_fine_UTM at 1. rewrite !lerp_exactR by assumption.
    cbn [bind]. rewrite IH, <- !app_assoc. reflexivity.
Qed.

Lemma emit_range_UTM_exactR x0 x1 y0 y1 pointDensity :
  for_each (range pointDensity)
    (append_fine_UTM x0 x1 y0 y1 pointDensity) ([], [])
  = Ok (map (sample x0 x1 pointDensity) (range pointDensity),
        map (sample y0 y1 pointDensity) (range pointDensity)).
Proof.
  destruct (Z.eq_dec pointDensity 0) as [ -> | Hd ].
  - reflexivity.
  - now rewrite emit_UTM_exactR.
Qed.

Lemma interpolate_UTM_returns_exactR self i
    (relativeEasting relativeNorthing : list R) :
  length relativeEasting = length relativeNorthing ->
  (0 <= i < Z.of_nat (length relativeEasting))%Z ->
  exists fine,
    interpolate_UTM self i relativeEasting relativeNorthing
      (Z.of_nat (length relativeEasting)) = Ok fine.
Proof.
  intros HEN Hi; unfold interpolate_UTM.
  change (of_int 25) with 25.
  destruct (Z.ltb_spec i (Z.of_nat (length relativeEasting) - 1)).
  - destruct (Z.eqb_spec i (Z.of_nat (length relativeEasting) - 1));
      [ lia | ].
    rewrite !(subscript_nth _ 0) by lia; cbn [bind].
    rewrite get_point_density_UTM_exactR by lra; cbn [bind].
    rewrite emit_range_UTM_exactR. cbn [bind]. eauto.
  - destruct (Z.eqb_spec i (Z.of_nat (length relativeEasting) - 1));
      [ | lia ].
    cbn [bind].
    destruct (Z.le_gt_cases 2 (Z.of_nat (length relativeEasting)))
      as [ H2 | H1 ].
    + rewrite !(subscript_nth _ 0) by lia; cbn [bind].
      rewrite get_point_density_UTM_exactR by lra; cbn [bind].
      rewrite emit_range_UTM_exactR. cbn [bind]. eauto.
    + destruct relativeEasting as [ | x [ | ? ? ] ]; cbn in Hi, H1; try lia.
      destruct relativeNorthing as [ | y [ | ? ? ] ]; try discriminate HEN.
      replace i with 0%Z by lia.
      change (subscript [x] (0 - 1)) with (Ok x).
      change (subscript [y] (0 - 1)) with (Ok y).
      change (subscript [x] 0) with (Ok x).
      change (subscript [y] 0) with (Ok y).
      cbn [bind].
      rewrite get_point_density_UTM_exactR by lra; cbn [bind].
      rewrite emit_range_UTM_exactR. cbn [bind]. eauto.
Qed.

End ExactUTM.

(** X13.  In exact arithmetic the planar run returns on every pair of coarse
    lists of one length, the empty ones and those of a single point included,
    and whatever spacing the interpolator is configured with, zero included:
    the only divisor it computes is 25/100. *)
Theorem interpolation_publish_UTM_always_returns
    (self : @PathInterpolatorUTM R)
    (relativeEastings relativeNorthings : list R) :
  length relativeEastings = length relativeNorthings ->
  exists eastingInterpolatedPositions northingInterpolatedPositions,
    interpolation_publish_UTM self relativeEastings relativeNorthings
    = Ok (eastingInterpolatedPositions, northingInterpolatedPositions).
Proof.
  intros HEN.
  enough (exists positions,
             interpolation_publish_UTM self relativeEastings
               relativeNorthings = Ok positions) as [[es ns] Hrun]
    by (exists es, ns; exact Hrun).
  unfold interpolation_publish_UTM.
  apply for_each_total. intros i [es ns] Hi.
  apply in_range in Hi.
  destruct (@interpolate_UTM_returns_exactR self i relativeEastings
              relativeNorthings HEN Hi) as [[fe fn] ->].
  cbn [bind]. eauto.
Qed.

Lemma interpolation_publish_UTM_always_returns_witness :
  exists eastingInterpolatedPositions northingInterpolatedPositions,
    interpolation_publish_UTM (PathInterpolatorUTM_init (Some 0%R))
      [0; 3]%R [0; 4]%R
    = Ok (eastingInterpolatedPositions, northingInterpolatedPositions).
Proof.
  apply interpolation_publish_UTM_always_returns. reflexivity.
Defined.

(** ** The final segment of the planar interpolator *)

(** X14.  The planar interpolator cuts every segment with the literal 25, so
    its step of index N-2 and its corner case of index N-1 run the same
    computation on the same pair of points: whatever the lists, the number of
    coarse points and the arithmetic, the two return the same result, and a
    run emits its final segment twice. *)
Theorem UTM_final_segment_emitted_twice {F : Type} `{PyFloat F}
    (self : PathInterpolatorUTM) (relativeEasting relativeNorthing : list F)
    (numberOfCoarsePoints : Z) :
  interpolate_UTM self (numberOfCoarsePoints - 2) relativeEasting
    relativeNorthing numberOfCoarsePoints
  = interpolate_UTM self (numberOfCoarsePoints - 1) relativeEasting
      relativeNorthing numberOfCoarsePoints.
Proof.
  unfold interpolate_UTM.
  destruct (Z.ltb_spec (numberOfCoarsePoints - 2) (numberOfCoarsePoints - 1));
    [ | lia ].
  destruct (Z.eqb_spec (numberOfCoarsePoints - 2) (numberOfCoarsePoints - 1));
    [ lia | ].
  destruct (Z.ltb_spec (numberOfCoarsePoints - 1) (numberOfCoarsePoints - 1));
    [ lia | ].
  destruct (Z.eqb_spec (numberOfCoarsePoints - 1) (numberOfCoarsePoints - 1));
    [ | lia ].
  replace (numberOfCoarsePoints - 2 + 1)%Z with (numberOfCoarsePoints - 1)%Z
    by lia.
  replace (numberOfCoarsePoints - 1 - 1)%Z with (numberOfCoarsePoints - 2)%Z
    by lia.
  cbn [bind].
  repeat (destruct (subscript _ _); cbn [bind]; [ | reflexivity ]).
  destruct (get_point_density_UTM _ _ _ _ _ _); cbn [bind];
    [ | reflexivity ].
  destruct (for_each _ _ _); reflexivity.
Qed.

(** ** A single coarse point *)

Lemma map_constant {A B : Type} (c : B) (l : list A) :
  map (fun _ => c) l = repeat c (length l).
Proof.
  induction l as [ | a l IH ]; cbn; [ reflexivity | now rewrite IH ].
Qed.

Lemma sample_constant (x : R) (pointDensity : Z) (ns : list Z) :
  map (sample x x pointDensity) ns = repeat x (length ns).
Proof.
  rewrite <- map_constant. apply map_ext; intros n; unfold sample.
  unfold Rdiv; ring.
Qed.

(** X15.  With a single coarse point the corner case reads the index -1,
    which Python wraps around to the point itself.  The density is then
    measured from (x, x, z) to (x, y, z): in exact arithmetic the run on the
    single point (x, y, z) returns int(|y - x| / 0.25) copies of it, none
    when the x and the y of the point are less than 0.25 apart. *)
Theorem single_point_emits_copies (self : @PathInterpolatorECEF R)
    (x y z : R) :
  let copies := Z.to_nat (Rtrunc (Rabs (y - x) / (25 / 100))%R) in
  interpolation_publish_ECEF self [x] [y] [z]
  = Ok (repeat x copies, repeat y copies, repeat z copies).
Proof.
  intros copies; unfold interpolation_publish_ECEF.
  change (range (Z.of_nat (length [x]))) with [0%Z].
  cbn [for_each].
  change (Z.of_nat (length [x])) with 1%Z.
  rewrite interpolate_ECEF_single_exactR. cbn [bind app].
  unfold emitted_segment.
  assert (Hd : euclidian_distance_3d x x z x y z = Rabs (y - x)).
  { unfold euclidian_distance_3d; cbn [fsub fadd fmul fsqrt exactR].
    replace ((x - x) * (x - x) + (y - x) * (y - x) + (z - z) * (z - z))%R
      with (Rsqr (y - x)) by (unfold Rsqr; ring).
    apply sqrt_Rsqr_abs. }
  rewrite Hd. cbv zeta. fold copies.
  rewrite !sample_constant, length_range. reflexivity.
Qed.
